(** * KGSL sync: timelines, wait points and the fence export pipeline

    A shallow embedding of [drivers/gpu/msm/kgsl_sync.c] and the properties
    of its timestamp timeline, its sync points and of
    [kgsl_add_fence_event].

    Layout of the development:
    - machine integers and the timestamp comparator;
    - the kernel objects the file touches (contexts, timelines, sync
      points, events) and the store they live in;
    - a small reader/state/fault monad in which the C functions are
      transcribed statement by statement, every call into the kernel or the
      sync framework being recorded in a call log;
    - the reference accounting of the sync framework, read off the log;
    - the theorems. *)

From stdpp Require Import base option list gmap strings.
From Stdlib Require Import ZArith Lia.

Local Open Scope Z_scope.

(** ** Machine integers *)

(** [unsigned int] and [u32] values are integers in [0, 2^32). *)
Definition u32_mod : Z := 2 ^ 32.
Definition u32 (z : Z) : Z := z `mod` u32_mod.

(** The same 32 bits read as an [int]. *)
Definition s32 (z : Z) : Z :=
  let u := u32 z in if bool_decide (u < 2 ^ 31) then u else u - u32_mod.

(** errno values of include/asm-generic/errno-base.h. *)
Definition ENOMEM : Z := 12.
Definition EFAULT : Z := 14.
Definition EINVAL : Z := 22.

(** ** Timestamp ordering *)

(** Modelled from the spec: [timestamp_cmp] is declared in kgsl.h, which is
    not part of the sources at hand.  The comparator works on the circular
    32-bit counter space by the signed difference of the unsigned values:
    the result is 1 (after) iff [a - b] read as a signed 32-bit quantity is
    positive, 0 (equal) iff the two are the same counter value, and -1
    (before) otherwise. *)
Definition timestamp_cmp (a b : Z) : Z :=
  let ts_diff := s32 (a - b) in
  if bool_decide (ts_diff = 0) then 0
  else if bool_decide (0 < ts_diff) then 1 else -1.

(** ** Kernel objects *)

(** Addresses of timeline objects; a C pointer is an [option loc], [None]
    being NULL. *)
Abbreviation loc := nat (only parsing).

(** [struct kgsl_sync_timeline]: the generic [struct sync_timeline] followed
    by the driver's field. *)
Record kgsl_sync_timeline := KgslSyncTimeline {
  last_timestamp : Z
}.

(** [struct kgsl_sync_pt]: the generic [struct sync_pt], of which the file
    reads [parent], followed by the driver's [timestamp].  Both are written
    once, at creation. *)
Record kgsl_sync_pt := KgslSyncPt {
  parent : option loc;
  timestamp : Z
}.

(** [struct kgsl_context], restricted to the field this file uses. *)
Record kgsl_context := KgslContext {
  timeline : option loc
}.

(** A [struct kgsl_context *]: contexts are identified by their id in the
    owner's context table. *)
Abbreviation context_ptr := Z (only parsing).

(** [struct kgsl_fence_event_priv]. *)
Record kgsl_fence_event_priv := KgslFenceEventPriv {
  context : context_ptr
}.

(** A [struct sync_fence *] as returned by [sync_fence_create]. *)
Record sync_fence := SyncFence {
  fence_name : string;
  fence_pt : kgsl_sync_pt
}.

(** ** Calls into the kernel and the sync framework

    The calls by which the file acquires, hands over, releases or signals
    something, with the arguments that matter and their result. *)
Inductive call :=
| Kzalloc (ok : bool)
| Kfree (ev : kgsl_fence_event_priv)
| Sync_pt_create (tl : option loc) (ok : bool)
| Sync_pt_free (pt : kgsl_sync_pt)
| Sync_fence_create (name : string) (pt : kgsl_sync_pt) (ok : bool)
| Sync_fence_put (f : sync_fence)
| Sync_fence_install (f : sync_fence) (fd : Z)
| Get_unused_fd_flags (flags : Z) (fd : Z)
| Put_unused_fd (fd : Z)
| Copy_to_user (fd : Z) (not_copied : Z)
| Kgsl_add_event (ts : Z) (ev : kgsl_fence_event_priv) (res : Z)
| Kgsl_drv_err (msg : string)
| Sync_timeline_create (name : string) (res : option loc)
| Sync_timeline_signal (tl : option loc)
| Sync_timeline_destroy (tl : option loc).

(** ** The store *)

Record world := World {
  (** the owner's context table: id to context *)
  w_contexts : gmap Z kgsl_context;
  (** the timeline objects, by address *)
  w_timelines : gmap loc kgsl_sync_timeline;
  (** events registered with [kgsl_add_event] and not yet fired *)
  w_events : list (Z * kgsl_fence_event_priv);
  (** the calls made so far, oldest first *)
  w_calls : list call
}.

Definition set_contexts (f : gmap Z kgsl_context → gmap Z kgsl_context)
    (w : world) : world :=
  World (f (w_contexts w)) (w_timelines w) (w_events w) (w_calls w).
Definition set_timelines
    (f : gmap loc kgsl_sync_timeline → gmap loc kgsl_sync_timeline)
    (w : world) : world :=
  World (w_contexts w) (f (w_timelines w)) (w_events w) (w_calls w).
Definition set_events
    (f : list (Z * kgsl_fence_event_priv) → list (Z * kgsl_fence_event_priv))
    (w : world) : world :=
  World (w_contexts w) (w_timelines w) (f (w_events w)) (w_calls w).
Definition set_calls (f : list call → list call) (w : world) : world :=
  World (w_contexts w) (w_timelines w) (w_events w) (f (w_calls w)).

(** What the collaborators answer during one entry into the driver: the
    allocators, the descriptor table, the user copy and the event
    subsystem can each fail. *)
Record env := Env {
  (** [kzalloc] returns non-NULL *)
  e_kzalloc : bool;
  (** [sync_pt_create] returns non-NULL *)
  e_sync_pt_create : bool;
  (** [sync_fence_create] returns non-NULL *)
  e_sync_fence_create : bool;
  (** value of [get_unused_fd_flags(0)]: a descriptor, or a negative errno *)
  e_get_unused_fd_flags : Z;
  (** value of [copy_to_user]: the number of bytes left uncopied *)
  e_copy_to_user : Z;
  (** value of [kgsl_add_event]: 0, or a negative errno *)
  e_kgsl_add_event : Z;
  (** value of [sync_timeline_create]: the new timeline, or NULL *)
  e_sync_timeline_create : option loc;
  (** what the driver's own fields of an object fresh from the sync
      framework hold before the driver writes them *)
  e_uninit : Z
}.

(** ** The monad

    A computation reads the collaborators' answers, threads the store and
    may fault (a dereference of NULL or of a dangling pointer). *)
Definition M (A : Type) : Type := env → world → option (A * world).

#[global] Instance M_ret : MRet M := λ A a _ w, Some (a, w).
#[global] Instance M_bind : MBind M := λ A B k m e w,
  match m e w with
  | Some (a, w') => k a e w'
  | None => None
  end.

Definition fault {A} : M A := λ _ _, None.
Definition ask {A} (f : env → A) : M A := λ e w, Some (f e, w).
Definition gets {A} (f : world → A) : M A := λ _ w, Some (f w, w).
Definition modify (f : world → world) : M unit := λ _ w, Some (tt, f w).
Definition emit (c : call) : M unit := modify (set_calls (λ l, l ++ [c])).

(** Dereference of a pointer read from the store. *)
Definition deref {A} (o : option A) : M A :=
  match o with Some a => mret a | None => fault end.

(** Result and final store of a run. *)
Definition result {A} (r : option (A * world)) : option A := fst <$> r.
Definition final {A} (r : option (A * world)) : option world := snd <$> r.

(** ** The collaborators

    Modelled from the spec: the context registry, the allocator, the sync
    framework (drivers/base/sync.c), the descriptor table, the user copy
    and the event subsystem are not part of the sources at hand.  Each is
    modelled at the interface the spec gives it: it answers what [env]
    says, leaves a record in the call log and, where the spec says so,
    updates the store. *)

(** [kgsl_find_context(owner, id)]: the context registered under [id], or
    NULL.  A lookup: it changes nothing. *)
Definition kgsl_find_context (id : Z) : M (option context_ptr) :=
  c ← gets (λ w, w_contexts w !! id);
  mret (match c with Some _ => Some id | None => None end).

(** [kzalloc(sizeof(struct kgsl_fence_event_priv), GFP_KERNEL)]: a zeroed
    event, or NULL. *)
Definition kzalloc : M (option kgsl_fence_event_priv) :=
  ok ← ask e_kzalloc;
  emit (Kzalloc ok);;
  mret (if ok : bool then Some (KgslFenceEventPriv 0) else None).

Definition kfree (ev : kgsl_fence_event_priv) : M unit := emit (Kfree ev).

(** [sync_pt_create(timeline, size)]: a new sync point whose [parent] is
    [timeline], or NULL. *)
Definition sync_pt_create (tl : option loc) : M (option kgsl_sync_pt) :=
  ok ← ask e_sync_pt_create;
  v ← ask e_uninit;
  emit (Sync_pt_create tl ok);;
  mret (if ok : bool then Some (KgslSyncPt tl v) else None).

Definition sync_pt_free (pt : kgsl_sync_pt) : M unit := emit (Sync_pt_free pt).

(** [sync_fence_create(name, pt)]: a fence wrapping [pt], or NULL. *)
Definition sync_fence_create (name : string) (pt : kgsl_sync_pt)
    : M (option sync_fence) :=
  ok ← ask e_sync_fence_create;
  emit (Sync_fence_create name pt ok);;
  mret (if ok : bool then Some (SyncFence name pt) else None).

Definition sync_fence_put (f : sync_fence) : M unit := emit (Sync_fence_put f).

Definition sync_fence_install (f : sync_fence) (fd : Z) : M unit :=
  emit (Sync_fence_install f fd).

Definition get_unused_fd_flags (flags : Z) : M Z :=
  fd ← ask e_get_unused_fd_flags;
  emit (Get_unused_fd_flags flags fd);;
  mret fd.

Definition put_unused_fd (fd : Z) : M unit := emit (Put_unused_fd fd).

(** [copy_to_user(data, &priv, sizeof(priv))], [priv] holding [fd]. *)
Definition copy_to_user (fd : Z) : M Z :=
  n ← ask e_copy_to_user;
  emit (Copy_to_user fd n);;
  mret n.

(** [kgsl_add_event(device, ts, kgsl_fence_event_cb, ev, owner)]: on
    success the callback is registered, to be fired once when [ts]
    retires; registering does not fire it. *)
Definition kgsl_add_event (ts : Z) (ev : kgsl_fence_event_priv) : M Z :=
  res ← ask e_kgsl_add_event;
  emit (Kgsl_add_event ts ev res);;
  (if bool_decide (res = 0)
   then modify (set_events (λ l, l ++ [(ts, ev)]))
   else mret tt);;
  mret res.

(** The driver's error log; [msg] is the message without its newline. *)
Definition KGSL_DRV_ERR (msg : string) : M unit := emit (Kgsl_drv_err msg).

(** [sync_timeline_create(ops, size, name)]: a timeline object at a new
    address, or NULL. *)
Definition sync_timeline_create (name : string) : M (option loc) :=
  res ← ask e_sync_timeline_create;
  v ← ask e_uninit;
  emit (Sync_timeline_create name res);;
  match res with
  | Some l => modify (set_timelines <[l := KgslSyncTimeline v]>);; mret (Some l)
  | None => mret None
  end.

Definition sync_timeline_signal (tl : option loc) : M unit :=
  emit (Sync_timeline_signal tl).

Definition sync_timeline_destroy (tl : option loc) : M unit :=
  emit (Sync_timeline_destroy tl).

(** ** Memory accesses of the driver *)

(** [*(struct kgsl_sync_timeline * ) p] *)
Definition read_timeline (p : option loc) : M kgsl_sync_timeline :=
  l ← deref p;
  tl ← gets (λ w, w_timelines w !! l);
  deref tl.

(** [((struct kgsl_sync_timeline * ) p)->last_timestamp = v] *)
Definition write_last_timestamp (p : option loc) (v : Z) : M unit :=
  l ← deref p;
  tl ← gets (λ w, w_timelines w !! l);
  _ ← deref tl;
  modify (set_timelines <[l := KgslSyncTimeline v]>).

(** [*c] for a context pointer [c] *)
Definition read_context (c : context_ptr) : M kgsl_context :=
  ctx ← gets (λ w, w_contexts w !! c);
  deref ctx.

(** [c->timeline = v] *)
Definition write_context_timeline (c : context_ptr) (v : option loc) : M unit :=
  ctx ← gets (λ w, w_contexts w !! c);
  _ ← deref ctx;
  modify (set_contexts <[c := KgslContext v]>).

(** ** Sync points *)

Definition kgsl_sync_pt_create (tl : option loc) (ts : Z)
    : M (option kgsl_sync_pt) :=
  pt ← sync_pt_create tl;
  match pt with
  | Some kpt => mret (Some (KgslSyncPt (parent kpt) ts))
  | None => mret None
  end.

(** Only for sync points that were created but not added to a fence. *)
Definition kgsl_sync_pt_destroy (pt : kgsl_sync_pt) : M unit :=
  sync_pt_free pt.

Definition kgsl_sync_pt_dup (pt : kgsl_sync_pt) : M (option kgsl_sync_pt) :=
  kgsl_sync_pt_create (parent pt) (timestamp pt).

Definition kgsl_sync_pt_has_signaled (pt : kgsl_sync_pt) : M Z :=
  ktimeline ← read_timeline (parent pt);
  let ts := timestamp pt in
  let last_ts := last_timestamp ktimeline in
  if bool_decide (0 ≤ timestamp_cmp last_ts ts) then mret 1 else mret 0.

Definition kgsl_sync_pt_compare (a b : kgsl_sync_pt) : Z :=
  let ts_a := timestamp a in
  let ts_b := timestamp b in
  timestamp_cmp ts_a ts_b.

(** ** Timelines *)

Definition kgsl_sync_timeline_create (c : context_ptr) : M Z :=
  tl ← sync_timeline_create "kgsl-timeline";
  write_context_timeline c tl;;
  ctx ← read_context c;
  match timeline ctx with
  | None => mret (- EINVAL)
  | Some _ =>
      write_last_timestamp (timeline ctx) 0;;
      mret 0
  end.

Definition kgsl_sync_timeline_signal (tl : option loc) (ts : Z) : M unit :=
  write_last_timestamp tl ts;;
  sync_timeline_signal tl.

Definition kgsl_sync_timeline_destroy (c : context_ptr) : M unit :=
  ctx ← read_context c;
  sync_timeline_destroy (timeline ctx).

(** ** The completion callback *)

Definition kgsl_fence_event_cb (ev : kgsl_fence_event_priv) (ts : Z) : M unit :=
  ctx ← read_context (context ev);
  kgsl_sync_timeline_signal (timeline ctx) ts;;
  kfree ev.

(** ** The fence export pipeline *)

Section Pipeline.

(** [sizeof(struct kgsl_timestamp_event_fence)]; the structure is declared
    in msm_kgsl.h. *)
Variable sizeof_priv : Z.

(** The unwinding ladder, one definition per label; [ret] is the value of
    the local of that name when the label is reached. *)
Definition fail_pt (event : kgsl_fence_event_priv) (ret : Z) : M Z :=
  kfree event;;
  mret ret.

Definition fail_fence := fail_pt.

Definition fail_fd (fence : sync_fence) (event : kgsl_fence_event_priv)
    (ret : Z) : M Z :=
  (* clean up sync_fence_create *)
  sync_fence_put fence;;
  fail_fence event ret.

Definition fail_copy_fd (fence : sync_fence) (fence_fd : Z)
    (event : kgsl_fence_event_priv) (ret : Z) : M Z :=
  (* clean up sync_fence_install *)
  sync_fence_put fence;;
  put_unused_fd fence_fd;;
  fail_fd fence event ret.

Definition fail_event := fail_copy_fd.

Definition kgsl_add_fence_event (context_id timestamp len : Z) : M Z :=
  if bool_decide (len ≠ sizeof_priv) then mret (- EINVAL) else
  ctx ← kgsl_find_context context_id;
  match ctx with
  | None => mret (- EINVAL)
  | Some ctx =>
  event ← kzalloc;
  match event with
  | None => mret (- ENOMEM)
  | Some _ =>
  let event := KgslFenceEventPriv ctx in
  c ← read_context ctx;
  pt ← kgsl_sync_pt_create (timeline c) timestamp;
  match pt with
  | None =>
      KGSL_DRV_ERR "kgsl_sync_pt_create failed";;
      fail_pt event (- ENOMEM)
  | Some pt =>
  fence ← sync_fence_create "kgsl-fence" pt;
  match fence with
  | None =>
      (* only destroy pt when not added to fence *)
      kgsl_sync_pt_destroy pt;;
      KGSL_DRV_ERR "sync_fence_create failed";;
      fail_fence event (- ENOMEM)
  | Some fence =>
  fence_fd ← get_unused_fd_flags 0;
  if bool_decide (fence_fd < 0) then
    KGSL_DRV_ERR "invalid fence fd";;
    fail_fd fence event (- EINVAL)
  else
  sync_fence_install fence fence_fd;;
  n ← copy_to_user fence_fd;
  if bool_decide (n ≠ 0) then fail_copy_fd fence fence_fd event (- EFAULT) else
  ret ← kgsl_add_event timestamp event;
  if bool_decide (ret ≠ 0) then fail_event fence fence_fd event ret else
  mret 0
  end end end end.

End Pipeline.

(** ** Sequences of advances *)

(** The timeline at [tl] is advanced to each timestamp of [tss] in turn, as
    the completion callbacks of successive events do. *)
Fixpoint advances (tl : option loc) (tss : list Z) : M unit :=
  match tss with
  | [] => mret tt
  | ts :: tss => kgsl_sync_timeline_signal tl ts;; advances tl tss
  end.

(** The calls made between store [w] and a later store [w']. *)
Definition calls_since (w w' : world) : list call :=
  drop (length (w_calls w)) (w_calls w').

(** ** Reference accounting

    Modelled from the spec: the sync framework's bookkeeping is not part of
    the sources at hand.  An Exported Fence is reference counted and
    destroyed when its last reference is dropped, which also destroys the
    Wait Point it wraps; [sync_fence_create] leaves the pipeline with one
    reference and [sync_fence_put] drops one.  A Wait Point that was never
    wrapped is released by [sync_pt_free].  Whether installing the fence at
    a descriptor gives the descriptor table a reference of its own (the
    fence is then shared by the pipeline and the table, which is what the
    "clean up sync_fence_install" put in the source undoes) or hands it the
    pipeline's is left open: [install_refs] is the number of references
    [sync_fence_install] takes.  A put on a fence that holds no reference
    any more, and so was destroyed already, releases nothing: it is
    counted as a stale put.  A ledger follows the one callback state, Wait
    Point, fence and descriptor of a run of the pipeline. *)
Record ledger := Ledger {
  (** callback states allocated and freed *)
  event_allocs : nat;
  event_frees : nat;
  (** Wait Points allocated, destroyed explicitly, destroyed with their fence *)
  pt_allocs : nat;
  pt_destroys : nat;
  pt_fence_releases : nat;
  (** fence references taken, dropped, and currently held *)
  refs_taken : nat;
  refs_dropped : nat;
  refcount : nat;
  (** descriptors reserved and released *)
  fds_reserved : nat;
  fds_released : nat;
  (** puts on a fence that had no reference left *)
  stale_puts : nat
}.

Definition ledger0 : ledger := Ledger 0 0 0 0 0 0 0 0 0 0 0.

Section Accounting.

Variable install_refs : nat.

Definition account_call (L : ledger) (c : call) : ledger :=
  let '(Ledger ea ef pa pd pf rt rd rc fr fl sp) := L in
  match c with
  | Kzalloc true => Ledger (S ea) ef pa pd pf rt rd rc fr fl sp
  | Kfree _ => Ledger ea (S ef) pa pd pf rt rd rc fr fl sp
  | Sync_pt_create _ true => Ledger ea ef (S pa) pd pf rt rd rc fr fl sp
  | Sync_pt_free _ => Ledger ea ef pa (S pd) pf rt rd rc fr fl sp
  | Sync_fence_create _ _ true =>
      Ledger ea ef pa pd pf (S rt) rd (S rc) fr fl sp
  | Sync_fence_install _ _ =>
      Ledger ea ef pa pd pf (rt + install_refs) rd (rc + install_refs) fr fl sp
  | Sync_fence_put _ =>
      match rc with
      | 0%nat => Ledger ea ef pa pd pf rt (S rd) 0 fr fl (S sp)
      | 1%nat => Ledger ea ef pa pd (S pf) rt (S rd) 0 fr fl sp
      | S rc' => Ledger ea ef pa pd pf rt (S rd) rc' fr fl sp
      end
  | Get_unused_fd_flags _ fd =>
      if bool_decide (0 ≤ fd) then Ledger ea ef pa pd pf rt rd rc (S fr) fl sp
      else L
  | Put_unused_fd _ => Ledger ea ef pa pd pf rt rd rc fr (S fl) sp
  | _ => L
  end.

Definition account (cs : list call) : ledger :=
  foldl account_call ledger0 cs.

(** Wait Points released, by either route. *)
Definition pt_releases (L : ledger) : nat :=
  (pt_destroys L + pt_fence_releases L)%nat.

(** Everything acquired was released exactly once: as many Wait Points
    released as allocated, as many fence references dropped as taken, no
    put on a fence already destroyed, and no Wait Point released both
    explicitly and with its fence. *)
Definition released_exactly_once (L : ledger) : Prop :=
  pt_allocs L = pt_releases L ∧
  refs_taken L = refs_dropped L ∧
  stale_puts L = 0%nat ∧
  (pt_destroys L = 0%nat ∨ pt_fence_releases L = 0%nat).

End Accounting.


(** Outcome of a run, seen from the store [w] it started in: the calls it
    made. *)
Definition calls_of {A} (r : option (A * world)) (w : world) : list call :=
  match r with
  | Some (_, w') => calls_since w w'
  | None => []
  end.

(** The [last_timestamp] of the timeline at [l], if there is one. *)
Definition last_retired (w : world) (l : loc) : option Z :=
  last_timestamp <$> w_timelines w !! l.

(** ** Sample stores

    One context, id 7, whose timeline lives at address 1. *)
Definition world_at (last : Z) : world :=
  World {[ 7 := KgslContext (Some 1%nat) ]}
        {[ 1%nat := KgslSyncTimeline last ]} [] [].

(** Every collaborator succeeds; the descriptor handed out is 3. *)
Definition env_ok : env := Env true true true 3 0 0 (Some 2%nat) 99.

(** [sync_fence_create] fails. *)
Definition env_fence_fails : env := Env true true false 3 0 0 None 99.

(** No descriptor is left: [get_unused_fd_flags] answers [-EMFILE]. *)
Definition env_fd_fails : env := Env true true true (- 24) 0 0 None 99.

(** The copy to the caller leaves its 4 bytes uncopied. *)
Definition env_copy_fails : env := Env true true true 3 4 0 None 99.

(** [kzalloc] fails. *)
Definition env_kzalloc_fails : env := Env false true true 3 0 0 None 99.

(** [sync_pt_create] fails. *)
Definition env_pt_fails : env := Env true false true 3 0 0 None 99.

(** [kgsl_add_event] answers [-ENOENT]. *)
Definition env_event_fails : env := Env true true true 3 0 (- 2) None 99.

(** [sync_timeline_create] fails. *)
Definition env_timeline_fails : env := Env true true true 3 0 0 None 99.

(** * Proofs *)

(** Symbolic execution: unfold the monad and the transcribed functions,
    leaving the tests on the collaborators' answers and on the store. *)
Ltac exec :=
  cbv beta iota zeta delta
    [kgsl_add_fence_event fail_event fail_copy_fd fail_fd fail_fence fail_pt
     kgsl_find_context kzalloc kfree sync_pt_create sync_pt_free
     sync_fence_create sync_fence_put sync_fence_install get_unused_fd_flags
     put_unused_fd copy_to_user kgsl_add_event KGSL_DRV_ERR
     sync_timeline_create sync_timeline_signal sync_timeline_destroy
     read_timeline write_last_timestamp read_context write_context_timeline
     kgsl_sync_pt_create kgsl_sync_pt_destroy kgsl_sync_pt_dup
     kgsl_sync_pt_has_signaled kgsl_sync_timeline_create
     kgsl_sync_timeline_signal kgsl_sync_timeline_destroy kgsl_fence_event_cb
     mbind M_bind mret M_ret fault ask gets modify emit deref
     set_calls set_events set_timelines set_contexts
     w_contexts w_timelines w_events w_calls
     e_kzalloc e_sync_pt_create e_sync_fence_create e_get_unused_fd_flags
     e_copy_to_user e_kgsl_add_event e_sync_timeline_create e_uninit
     parent timestamp timeline context last_timestamp
     result final calls_of calls_since last_retired fmap option_fmap option_map fst snd]
    in *.

(** The calls appended to a log are what [calls_since] reads back. *)
Ltac norm_calls :=
  repeat rewrite <- (assoc_L (++));
  rewrite ?drop_app_length, ?drop_all; simpl.

(** Membership in an explicit list of calls. *)
Ltac in_calls :=
  rewrite ?elem_of_cons, ?elem_of_nil; intuition (simplify_eq; auto).

(** ** The model at work *)

(** The comparator on near and on wrapped-around counters. *)
Example timestamp_cmp_values :
  timestamp_cmp 3 5 = -1 ∧ timestamp_cmp 5 5 = 0 ∧ timestamp_cmp 7 5 = 1 ∧
  timestamp_cmp 2 4294967290 = 1 ∧ timestamp_cmp 4294967290 2 = -1.
Proof. vm_compute. done. Qed.

(** The calls of a run in which every step succeeds. *)
Example success_path_calls :
  let pt := KgslSyncPt (Some 1%nat) 5 in
  let fence := SyncFence "kgsl-fence" pt in
  let run := kgsl_add_fence_event 4 7 5 4 env_ok (world_at 0) in
  result run = Some 0 ∧
  calls_of run (world_at 0) =
    [Kzalloc true; Sync_pt_create (Some 1%nat) true;
     Sync_fence_create "kgsl-fence" pt true; Get_unused_fd_flags 0 3;
     Sync_fence_install fence 3; Copy_to_user 3 0;
     Kgsl_add_event 5 (KgslFenceEventPriv 7) 0] ∧
  (w_events <$> final run) = Some [(5, KgslFenceEventPriv 7)].
Proof. vm_compute. done. Qed.

(** A fence for timestamp 5 on a fresh timeline: its Wait Point is not
    signalled when the fence is created, and is once the registered
    callback has fired with 5. *)
Example fence_signalled_by_callback :
  let pt := KgslSyncPt (Some 1%nat) 5 in
  result ((kgsl_add_fence_event 4 7 5 4;;
           kgsl_sync_pt_has_signaled pt) env_ok (world_at 0)) = Some 0 ∧
  result ((kgsl_add_fence_event 4 7 5 4;;
           kgsl_fence_event_cb (KgslFenceEventPriv 7) 5;;
           kgsl_sync_pt_has_signaled pt) env_ok (world_at 0)) = Some 1.
Proof. vm_compute. done. Qed.

(** A failed descriptor reservation: the fence is put once and the Wait
    Point is not destroyed explicitly. *)
Example fd_failure_calls :
  let pt := KgslSyncPt (Some 1%nat) 5 in
  let run := kgsl_add_fence_event 4 7 5 4
               env_fd_fails (world_at 0) in
  result run = Some (- EINVAL) ∧
  calls_of run (world_at 0) =
    [Kzalloc true; Sync_pt_create (Some 1%nat) true;
     Sync_fence_create "kgsl-fence" pt true; Get_unused_fd_flags 0 (- 24);
     Kgsl_drv_err "invalid fence fd";
     Sync_fence_put (SyncFence "kgsl-fence" pt);
     Kfree (KgslFenceEventPriv 7)].
Proof. vm_compute. done. Qed.

(** ** The comparator *)

Lemma s32_small z : - 2 ^ 31 ≤ z < 2 ^ 31 → s32 z = z.
Proof.
  intros Hz. unfold s32, u32, u32_mod.
  destruct (decide (0 ≤ z)) as [Hp|Hn].
  - rewrite Z.mod_small by lia. rewrite bool_decide_true; lia.
  - replace (z `mod` 2 ^ 32) with (z + 2 ^ 32).
    + rewrite bool_decide_false; lia.
    + apply (Z.mod_unique_pos _ _ (-1)); lia.
Qed.

Lemma timestamp_cmp_cases a b :
  timestamp_cmp a b = -1 ∨ timestamp_cmp a b = 0 ∨ timestamp_cmp a b = 1.
Proof. unfold timestamp_cmp. repeat case_bool_decide; auto. Qed.

Lemma timestamp_cmp_refl a : timestamp_cmp a a = 0.
Proof.
  unfold timestamp_cmp. rewrite Z.sub_diag, s32_small by lia.
  by rewrite bool_decide_true.
Qed.

(** Without wrap-around the comparator is the order of the integers. *)
Lemma timestamp_cmp_near a b :
  - 2 ^ 31 ≤ a - b < 2 ^ 31 →
  timestamp_cmp a b = if bool_decide (a = b) then 0
                      else if bool_decide (b < a) then 1 else -1.
Proof.
  intros H. unfold timestamp_cmp. rewrite s32_small by done.
  repeat case_bool_decide; lia.
Qed.

(** ** Timelines *)

Lemma kgsl_sync_timeline_signal_run e w l tl ts :
  w_timelines w !! l = Some tl →
  kgsl_sync_timeline_signal (Some l) ts e w =
    Some (tt, World (w_contexts w) (<[l := KgslSyncTimeline ts]> (w_timelines w))
                    (w_events w) (w_calls w ++ [Sync_timeline_signal (Some l)])).
Proof. intros H. destruct w. exec. by rewrite H. Qed.

Lemma advances_run e tss : ∀ w l tl,
  w_timelines w !! l = Some tl →
  ∃ w', advances (Some l) tss e w = Some (tt, w') ∧
        w_timelines w' !! l =
          Some (KgslSyncTimeline (default (last_timestamp tl) (last tss))) ∧
        (∀ l', l' ≠ l → w_timelines w' !! l' = w_timelines w !! l') ∧
        w_contexts w' = w_contexts w.
Proof.
  induction tss as [|ts tss IH]; intros w l tl Hl.
  - exists w. destruct tl. by repeat split.
  - cbn [advances]. unfold mbind at 1, M_bind.
    rewrite (kgsl_sync_timeline_signal_run _ _ _ _ _ Hl).
    edestruct (IH (World (w_contexts w) (<[l:=KgslSyncTimeline ts]> (w_timelines w))
                      (w_events w) (w_calls w ++ [Sync_timeline_signal (Some l)]))
                 l (KgslSyncTimeline ts)) as (w' & Hrun & Hlast & Hother & Hctx).
    { cbn. apply lookup_insert_eq. }
    exists w'. split; [done|]. split; [|split].
    + rewrite Hlast, last_cons. by destruct (last tss).
    + intros l' Hne. rewrite Hother by done. cbn. by apply lookup_insert_ne.
    + by rewrite Hctx.
Qed.

Lemma kgsl_sync_pt_has_signaled_run e w pt l tl :
  parent pt = Some l →
  w_timelines w !! l = Some tl →
  kgsl_sync_pt_has_signaled pt e w =
    Some (if bool_decide (0 ≤ timestamp_cmp (last_timestamp tl) (timestamp pt))
          then 1 else 0, w).
Proof.
  intros Hp Hl. destruct pt as [p t], w. cbn in Hp, Hl. subst p. exec.
  rewrite Hl. by case_bool_decide.
Qed.

(** C3: for a Wait Point bound to a live timeline,
    [kgsl_sync_pt_has_signaled] answers 1 exactly when
    [timestamp_cmp(last_timestamp, timestamp) >= 0] and 0 otherwise, and the
    store it returns is the store it was given: neither the Wait Point nor
    the timeline is written. *)
Theorem has_signaled_iff_not_before e w pt l tl :
  parent pt = Some l →
  w_timelines w !! l = Some tl →
  ∃ r, kgsl_sync_pt_has_signaled pt e w = Some (r, w) ∧
       (r = 1 ∨ r = 0) ∧
       (r = 1 ↔ 0 ≤ timestamp_cmp (last_timestamp tl) (timestamp pt)).
Proof.
  intros Hp Hl. rewrite (kgsl_sync_pt_has_signaled_run _ _ _ _ _ Hp Hl).
  eexists; split; [reflexivity|]. case_bool_decide; split; auto.
  - tauto.
  - split; [discriminate|tauto].
Qed.

Lemma has_signaled_iff_not_before_witness :
  w_timelines (world_at 9) !! 1%nat = Some (KgslSyncTimeline 9) ∧
  ∃ r, kgsl_sync_pt_has_signaled (KgslSyncPt (Some 1%nat) 5) env_ok (world_at 9)
         = Some (r, world_at 9) ∧
       (r = 1 ∨ r = 0) ∧
       (r = 1 ↔ 0 ≤ timestamp_cmp 9 5).
Proof.
  split; [reflexivity|].
  apply (has_signaled_iff_not_before env_ok (world_at 9)
           (KgslSyncPt (Some 1%nat) 5) 1%nat (KgslSyncTimeline 9));
    reflexivity.
Defined.

(** C2, as stated, fails: a timeline whose [last_timestamp] is 5 and that is
    signalled with 3 ends up at 3, which the comparator places before 5. *)
Lemma timeline_signal_can_go_back :
  (final (kgsl_sync_timeline_signal (Some 1%nat) 3 env_ok (world_at 5))
     ≫= λ w', last_retired w' 1%nat) = Some 3 ∧
  last_retired (world_at 5) 1%nat = Some 5 ∧
  timestamp_cmp 3 5 = -1.
Proof. vm_compute. done. Qed.

(** C2, amended: [kgsl_sync_timeline_signal] stores the timestamp it is
    given, whatever the previous value; [last_timestamp] therefore moves
    forward under the comparator whenever the caller's timestamp is not
    before the previous value, and only then. *)
Theorem timeline_signal_sets_last_retired e w l old ts :
  last_retired w l = Some old →
  let run := kgsl_sync_timeline_signal (Some l) ts e w in
  result run = Some tt ∧
  (final run ≫= λ w', last_retired w' l) = Some ts ∧
  (∀ new, (final run ≫= λ w', last_retired w' l) = Some new →
          (timestamp_cmp new old ≠ -1 ↔ timestamp_cmp ts old ≠ -1)).
Proof.
  intros Hold run. unfold last_retired in Hold.
  destruct (w_timelines w !! l) as [tl|] eqn:Hl; [|done].
  injection Hold as <-. subst run.
  rewrite (kgsl_sync_timeline_signal_run _ _ _ _ _ Hl). cbn.
  unfold last_retired. cbn. rewrite lookup_insert_eq. cbn.
  split; [done|]. split; [done|]. intros new [= <-]. done.
Qed.

Lemma timeline_signal_sets_last_retired_witness :
  last_retired (world_at 5) 1%nat = Some 5 ∧
  (final (kgsl_sync_timeline_signal (Some 1%nat) 8 env_ok (world_at 5))
     ≫= λ w', last_retired w' 1%nat) = Some 8.
Proof.
  split; [reflexivity|].
  apply (timeline_signal_sets_last_retired env_ok (world_at 5) 1%nat 5 8).
  reflexivity.
Defined.

(** C4, as stated, fails on both counts.  A Wait Point for timestamp 5 is
    signalled once the timeline is advanced to 5, and no longer is after a
    further advance to 3; and on a fresh timeline a Wait Point for
    timestamp 0 is signalled before any advance. *)
Lemma has_signaled_can_be_unsignaled :
  result ((advances (Some 1%nat) [5];;
           kgsl_sync_pt_has_signaled (KgslSyncPt (Some 1%nat) 5))
            env_ok (world_at 0)) = Some 1 ∧
  result ((advances (Some 1%nat) [5; 3];;
           kgsl_sync_pt_has_signaled (KgslSyncPt (Some 1%nat) 5))
            env_ok (world_at 0)) = Some 0 ∧
  result (kgsl_sync_pt_has_signaled (KgslSyncPt (Some 1%nat) 0)
            env_ok (world_at 0)) = Some 1.
Proof. vm_compute. done. Qed.

(** C4, amended: after any sequence of advances the answer of
    [kgsl_sync_pt_has_signaled] is decided by the most recent advance alone
    (by the initial [last_timestamp] when there was none): it is 1 iff that
    timestamp is not before the target.  So it is 0 as long as the initial
    value and every advance so far are before the target, and once an
    advance is not before the target it stays 1 for as long as every later
    advance is not before the target either. *)
Theorem has_signaled_follows_latest_advance e w l old target tss :
  last_retired w l = Some old →
  let wp := KgslSyncPt (Some l) target in
  let signaled :=
    result ((advances (Some l) tss;; kgsl_sync_pt_has_signaled wp) e w) in
  signaled = Some (if bool_decide (0 ≤ timestamp_cmp (default old (last tss)) target)
                   then 1 else 0) ∧
  (Forall (λ t, timestamp_cmp t target = -1) (old :: tss) → signaled = Some 0) ∧
  (∀ tss1 t tss2, tss = tss1 ++ t :: tss2 →
     Forall (λ t', 0 ≤ timestamp_cmp t' target) (t :: tss2) → signaled = Some 1).
Proof.
  intros Hold wp signaled. unfold last_retired in Hold.
  destruct (w_timelines w !! l) as [tl|] eqn:Hl; [|done].
  injection Hold as <-.
  assert (Hmain : signaled =
    Some (if bool_decide
               (0 ≤ timestamp_cmp (default (last_timestamp tl) (last tss)) target)
          then 1 else 0)).
  { unfold signaled.
    destruct (advances_run e tss w l tl Hl) as (w' & Hrun & Hlast & _ & _).
    unfold mbind at 1, M_bind. rewrite Hrun.
    by rewrite (kgsl_sync_pt_has_signaled_run e w' wp l _ eq_refl Hlast). }
  split; [done|]. rewrite Hmain. split.
  - intros Hall.
    assert (timestamp_cmp (default (last_timestamp tl) (last tss)) target = -1)
      as ->; [|done].
    destruct (last tss) as [t|] eqn:Ht; cbn.
    + apply last_Some_elem_of in Ht.
      rewrite Forall_forall in Hall. apply Hall. by right.
    + by inversion Hall.
  - intros tss1 t tss2 -> Hall.
    assert (Hin : default (last_timestamp tl) (last (tss1 ++ t :: tss2))
                    ∈ t :: tss2).
    { rewrite last_app, last_cons.
      destruct (last tss2) as [t'|] eqn:Ht; cbn; [|by left].
      right. by apply last_Some_elem_of. }
    rewrite Forall_forall in Hall. by rewrite bool_decide_true by auto.
Qed.

Lemma has_signaled_follows_latest_advance_witness :
  last_retired (world_at 0) 1%nat = Some 0 ∧
  result ((advances (Some 1%nat) [2; 7; 6];;
           kgsl_sync_pt_has_signaled (KgslSyncPt (Some 1%nat) 5))
            env_ok (world_at 0)) = Some 1.
Proof.
  split; [reflexivity|].
  apply (has_signaled_follows_latest_advance env_ok (world_at 0) 1%nat 0 5
           [2; 7; 6] eq_refl).
Defined.

(** C8: on a live context, [kgsl_sync_timeline_create] returns 0 and leaves
    the context with a timeline whose [last_timestamp] is 0 when
    [sync_timeline_create] succeeds; when it fails the call returns
    [-EINVAL], the context's [timeline] is NULL and no timeline object was
    added or changed. *)
Theorem timeline_create_initialises e w c ctx :
  w_contexts w !! c = Some ctx →
  let run := kgsl_sync_timeline_create c e w in
  match e_sync_timeline_create e with
  | Some l =>
      result run = Some 0 ∧
      (final run ≫= λ w', timeline <$> w_contexts w' !! c) = Some (Some l) ∧
      (final run ≫= λ w', last_retired w' l) = Some 0
  | None =>
      result run = Some (- EINVAL) ∧
      (final run ≫= λ w', timeline <$> w_contexts w' !! c) = Some None ∧
      (w_timelines <$> final run) = Some (w_timelines w)
  end.
Proof.
  intros Hc run. subst run. destruct e as [kz pc fc fd cu ae [l|] un], w as [cx tls evs cs].
  all: exec; cbn in Hc; rewrite Hc.
  all: rewrite ?lookup_insert_eq; cbn.
  all: rewrite ?lookup_insert_eq; done.
Qed.

Lemma timeline_create_initialises_witness :
  w_contexts (world_at 4) !! 7 = Some (KgslContext (Some 1%nat)) ∧
  result (kgsl_sync_timeline_create 7 env_ok (world_at 4)) = Some 0 ∧
  (final (kgsl_sync_timeline_create 7 env_ok (world_at 4))
     ≫= λ w', timeline <$> w_contexts w' !! 7) = Some (Some 2%nat) ∧
  (final (kgsl_sync_timeline_create 7 env_ok (world_at 4))
     ≫= λ w', last_retired w' 2%nat) = Some 0.
Proof.
  split; [reflexivity|].
  apply (timeline_create_initialises env_ok (world_at 4) 7
           (KgslContext (Some 1%nat))).
  reflexivity.
Defined.

(** ** Sync points *)

Lemma kgsl_sync_pt_create_run e w tl ts :
  kgsl_sync_pt_create tl ts e w =
    Some (if e_sync_pt_create e then Some (KgslSyncPt tl ts) else None,
          World (w_contexts w) (w_timelines w) (w_events w)
                (w_calls w ++ [Sync_pt_create tl (e_sync_pt_create e)])).
Proof. destruct e as [kz [] fc fd cu ae tc un], w; by exec. Qed.

(** The answer of [kgsl_sync_pt_has_signaled] depends on the timelines
    only. *)
Lemma kgsl_sync_pt_has_signaled_timelines e e' w w' pt :
  w_timelines w = w_timelines w' →
  result (kgsl_sync_pt_has_signaled pt e w) =
  result (kgsl_sync_pt_has_signaled pt e' w').
Proof.
  destruct pt as [[l|] t], w, w'; exec; intros ->; [|done].
  destruct (_ !! l) as [[last]|]; [|done]. by case_bool_decide.
Qed.



(** ** The fence export pipeline *)

(** Case analysis on everything the pipeline tests. *)
Ltac pipeline :=
  exec;
  repeat (case_bool_decide || case_match);
  simplify_eq; try congruence; norm_calls.

(** The pipeline never faults: it returns on every path. *)
Lemma kgsl_add_fence_event_returns sz id ts len e w :
  ∃ r w', kgsl_add_fence_event sz id ts len e w = Some (r, w').
Proof.
  destruct e as [kz pc fc fd cu ae tc un], w as [cx tls evs cs].
  pipeline; by eexists _, _.
Qed.

(** C5: with a [context_id] that is not in the context table,
    [kgsl_add_fence_event] returns [-EINVAL] and hands back the store it
    was given: nothing was allocated, reserved or registered, and no call
    to an allocator or to the sync framework was made. *)
Theorem unknown_context_is_rejected sz id ts len e w :
  w_contexts w !! id = None →
  kgsl_add_fence_event sz id ts len e w = Some (- EINVAL, w).
Proof.
  intros Hc. destruct e as [kz pc fc fd cu ae tc un], w as [cx tls evs cs].
  cbn in Hc. pipeline; done.
Qed.

Lemma unknown_context_is_rejected_witness :
  w_contexts (world_at 0) !! 8 = None ∧
  kgsl_add_fence_event 4 8 5 4 env_ok (world_at 0) = Some (- EINVAL, world_at 0).
Proof.
  split; [reflexivity|].
  apply (unknown_context_is_rejected 4 8 5 4 env_ok (world_at 0)).
  reflexivity.
Defined.

(** C6: when [sync_fence_create] returns NULL the pipeline destroys the
    Wait Point with [kgsl_sync_pt_destroy], frees the callback state and
    returns [-ENOMEM]; these are its only calls after the failed one: no
    descriptor is asked for and no event is registered. *)
Theorem fence_create_failure_unwinds sz id ts e w c :
  w_contexts w !! id = Some c →
  e_kzalloc e = true →
  e_sync_pt_create e = true →
  e_sync_fence_create e = false →
  let run := kgsl_add_fence_event sz id ts sz e w in
  let pt := KgslSyncPt (timeline c) ts in
  result run = Some (- ENOMEM) ∧
  calls_of run w =
    [Kzalloc true; Sync_pt_create (timeline c) true;
     Sync_fence_create "kgsl-fence" pt false;
     Sync_pt_free pt; Kgsl_drv_err "sync_fence_create failed";
     Kfree (KgslFenceEventPriv id)] ∧
  (w_events <$> final run) = Some (w_events w).
Proof.
  intros Hc Hkz Hpc Hfc run pt. subst run pt.
  destruct e as [kz pc fc fd cu ae tc un], w as [cx tls evs cs].
  cbn in Hc, Hkz, Hpc, Hfc. subst. pipeline; done.
Qed.

Lemma fence_create_failure_unwinds_witness :
  w_contexts (world_at 0) !! 7 = Some (KgslContext (Some 1%nat)) ∧
  result (kgsl_add_fence_event 4 7 5 4 env_fence_fails (world_at 0))
    = Some (- ENOMEM).
Proof.
  split; [reflexivity|].
  apply (fence_create_failure_unwinds 4 7 5 env_fence_fails
           (world_at 0) (KgslContext (Some 1%nat)));
    reflexivity.
Defined.




(** C1: the unwinding ladder does not drop the fence's references as
    often as they were taken.  Take a run that fails after the fence was
    installed, because the copy to the caller or the registration of the
    event fails, and the run in which the same steps all succeed.  The
    successful run puts nothing and leaves every reference taken with the
    fence, of which the descriptor owns one; the failing run has taken as
    many and puts the fence twice.  So if the descriptor is the only owner
    left after success, the second put of the failing run hits a fence
    that was destroyed already; and if the two puts of the failing run
    balance, success leaves a reference beyond the descriptor's that
    nothing will drop.  The Wait Point itself is allocated once and never
    destroyed explicitly on these paths. *)
Theorem ladder_puts_installed_fence_twice k sz id ts e w c :
  w_contexts w !! id = Some c →
  e_kzalloc e = true →
  e_sync_pt_create e = true →
  e_sync_fence_create e = true →
  0 ≤ e_get_unused_fd_flags e →
  e_copy_to_user e ≠ 0 ∨ e_kgsl_add_event e ≠ 0 →
  let e_ok := Env true true true (e_get_unused_fd_flags e) 0 0
                  (e_sync_timeline_create e) (e_uninit e) in
  let ok := kgsl_add_fence_event sz id ts sz e_ok w in
  let ko := kgsl_add_fence_event sz id ts sz e w in
  let Lok := account k (calls_of ok w) in
  let Lko := account k (calls_of ko w) in
  (result ok = Some 0 ∧
   refs_taken Lok = (1 + k)%nat ∧ refs_dropped Lok = 0%nat ∧
   refcount Lok = (1 + k)%nat) ∧
  (result ko ≠ Some 0 ∧
   refs_taken Lko = (1 + k)%nat ∧ refs_dropped Lko = 2%nat ∧
   pt_allocs Lko = 1%nat ∧ pt_destroys Lko = 0%nat) ∧
  (refcount Lok = 1%nat →
   stale_puts Lko = 1%nat ∧ ¬ released_exactly_once Lko) ∧
  (released_exactly_once Lko → refcount Lok = 2%nat).
Proof.
  intros Hc Hkz Hpc Hfc Hfd Hfail e_ok ok ko Lok Lko.
  subst Lok Lko ok ko e_ok.
  destruct e as [kz pc fc fd cu ae tc un], w as [cx tls evs cs].
  cbn in Hc, Hkz, Hpc, Hfc, Hfd, Hfail. subst.
  pipeline; try lia.
  all: unfold account, released_exactly_once, pt_releases; cbn.
  all: rewrite ?bool_decide_true by done.
  all: destruct k as [|[|k]]; cbn.
  all: repeat split; try done; try lia; try congruence.
  all: try (intros (? & ? & ? & ?); try done; lia).
  all: intros [=].
Qed.

Lemma ladder_puts_installed_fence_twice_witness :
  w_contexts (world_at 0) !! 7 = Some (KgslContext (Some 1%nat)) ∧
  0 ≤ 3 ∧ (4 ≠ 0 ∨ 0 ≠ 0) ∧
  result (kgsl_add_fence_event 4 7 5 4 env_copy_fails (world_at 0)) ≠ Some 0 ∧
  refs_taken (account 0 (calls_of (kgsl_add_fence_event 4 7 5 4
                env_copy_fails (world_at 0)) (world_at 0))) = 1%nat ∧
  refs_dropped (account 0 (calls_of (kgsl_add_fence_event 4 7 5 4
                  env_copy_fails (world_at 0)) (world_at 0))) = 2%nat.
Proof.
  split; [reflexivity|]. split; [lia|]. split; [left; lia|].
  destruct (ladder_puts_installed_fence_twice 0 4 7 5 env_copy_fails
              (world_at 0) (KgslContext (Some 1%nat)))
    as (_ & (Hr & Ht & Hd & _) & _); try reflexivity.
  - simpl. lia.
  - left. simpl. lia.
  - split; [exact Hr|]. split; [exact Ht|exact Hd].
Defined.

(** The Wait Point operations other than the advance leave every timeline
    as it is. *)
Lemma sync_pt_ops_keep_timelines e w pt ts :
  (w_timelines <$> final (kgsl_sync_pt_create (parent pt) ts e w)) = Some (w_timelines w) ∧
  (w_timelines <$> final (kgsl_sync_pt_dup pt e w)) = Some (w_timelines w) ∧
  (w_timelines <$> final (kgsl_sync_pt_destroy pt e w)) = Some (w_timelines w).
Proof.
  unfold kgsl_sync_pt_dup. rewrite !kgsl_sync_pt_create_run. by destruct w.
Qed.

(** The completion callback advances the timeline of its context to the
    retired timestamp and frees its private state. *)
Lemma kgsl_fence_event_cb_run e w ev ts l old :
  (timeline <$> w_contexts w !! context ev) = Some (Some l) →
  last_retired w l = Some old →
  let run := kgsl_fence_event_cb ev ts e w in
  (final run ≫= λ w', last_retired w' l) = Some ts ∧
  calls_of run w = [Sync_timeline_signal (Some l); Kfree ev].
Proof.
  intros Hc Hl run. subst run. destruct ev as [c], w as [cx tls evs cs].
  exec. destruct (cx !! c) as [[tl]|]; simplify_eq/=.
  destruct (tls !! l); simplify_eq/=. rewrite lookup_insert_eq.
  by norm_calls.
Qed.

(** C10: [kgsl_add_fence_event] always returns, and whichever path it
    takes it leaves every timeline as it found it: [last_timestamp] is
    unchanged, no advance is among the calls it makes, and every Wait Point
    answers [kgsl_sync_pt_has_signaled] after the call as it did before. *)
Theorem add_fence_event_keeps_timelines sz id ts len e w :
  ∃ r w', kgsl_add_fence_event sz id ts len e w = Some (r, w') ∧
    w_timelines w' = w_timelines w ∧
    (∀ l, last_retired w' l = last_retired w l) ∧
    (∀ tl, Sync_timeline_signal tl ∉ calls_since w w') ∧
    (∀ pt e', result (kgsl_sync_pt_has_signaled pt e' w') =
              result (kgsl_sync_pt_has_signaled pt e' w)).
Proof.
  assert (∃ r w', kgsl_add_fence_event sz id ts len e w = Some (r, w') ∧
            w_timelines w' = w_timelines w ∧
            (∀ tl, Sync_timeline_signal tl ∉ calls_since w w'))
    as (r & w' & Hrun & Htl & Hcalls).
  { destruct e as [kz pc fc fd cu ae tc un], w as [cx tls evs cs].
    pipeline; eexists _, _; (split; [reflexivity|]); (split; [done|]).
    all: intros tl; exec; norm_calls.
    all: rewrite ?elem_of_cons, elem_of_nil; intuition discriminate. }
  exists r, w'. split; [done|]. split; [done|]. split; [|split; [done|]].
  - intros l. unfold last_retired. by rewrite Htl.
  - intros pt e'. by apply kgsl_sync_pt_has_signaled_timelines.
Qed.

Lemma add_fence_event_keeps_timelines_witness :
  ∃ r w', kgsl_add_fence_event 4 7 5 4 env_ok (world_at 0) = Some (r, w') ∧
          w_timelines w' = w_timelines (world_at 0).
Proof.
  destruct (add_fence_event_keeps_timelines 4 7 5 4 env_ok (world_at 0))
    as (r & w' & Hrun & Htl & _).
  exists r, w'. split; [exact Hrun|exact Htl].
Defined.

(** * Further properties of the pipeline *)

(** ** Entry checks and early failures *)

(** X1: a request whose length is not [sizeof(priv)] is refused with [-EINVAL]
    before the context is looked up: the store comes back as it was, known
    context or not. *)
Theorem bad_length_is_rejected sz id ts len e w :
  len ≠ sz →
  kgsl_add_fence_event sz id ts len e w = Some (- EINVAL, w).
Proof.
  intros Hlen. destruct e as [kz pc fc fd cu ae tc un], w as [cx tls evs cs].
  pipeline; done.
Qed.

Lemma bad_length_is_rejected_witness :
  8 ≠ 4 ∧
  kgsl_add_fence_event 4 7 5 8 env_ok (world_at 0) = Some (- EINVAL, world_at 0).
Proof.
  split; [lia|].
  apply (bad_length_is_rejected 4 7 5 8 env_ok (world_at 0)). lia.
Defined.

(** X2: when the callback state cannot be allocated the pipeline returns
    [-ENOMEM] at once: the failed [kzalloc] is its only call, there is
    nothing to unwind and no event is registered. *)
Theorem kzalloc_failure_returns_enomem sz id ts e w c :
  w_contexts w !! id = Some c →
  e_kzalloc e = false →
  let run := kgsl_add_fence_event sz id ts sz e w in
  result run = Some (- ENOMEM) ∧
  calls_of run w = [Kzalloc false] ∧
  (w_events <$> final run) = Some (w_events w).
Proof.
  intros Hc Hkz run. subst run.
  destruct e as [kz pc fc fd cu ae tc un], w as [cx tls evs cs].
  cbn in Hc, Hkz. subst. pipeline; done.
Qed.

Lemma kzalloc_failure_returns_enomem_witness :
  w_contexts (world_at 0) !! 7 = Some (KgslContext (Some 1%nat)) ∧
  result (kgsl_add_fence_event 4 7 5 4 env_kzalloc_fails (world_at 0))
    = Some (- ENOMEM).
Proof.
  split; [reflexivity|].
  apply (kzalloc_failure_returns_enomem 4 7 5 env_kzalloc_fails (world_at 0)
           (KgslContext (Some 1%nat)));
    reflexivity.
Defined.

(** X3: when the Wait Point cannot be created the pipeline logs the error,
    frees the callback state and returns [-ENOMEM]; it neither destroys a
    Wait Point nor touches fences, descriptors or events. *)
Theorem pt_create_failure_unwinds sz id ts e w c :
  w_contexts w !! id = Some c →
  e_kzalloc e = true →
  e_sync_pt_create e = false →
  let run := kgsl_add_fence_event sz id ts sz e w in
  result run = Some (- ENOMEM) ∧
  calls_of run w =
    [Kzalloc true; Sync_pt_create (timeline c) false;
     Kgsl_drv_err "kgsl_sync_pt_create failed";
     Kfree (KgslFenceEventPriv id)] ∧
  (w_events <$> final run) = Some (w_events w).
Proof.
  intros Hc Hkz Hpc run. subst run.
  destruct e as [kz pc fc fd cu ae tc un], w as [cx tls evs cs].
  cbn in Hc, Hkz, Hpc. subst. pipeline; done.
Qed.

Lemma pt_create_failure_unwinds_witness :
  w_contexts (world_at 0) !! 7 = Some (KgslContext (Some 1%nat)) ∧
  result (kgsl_add_fence_event 4 7 5 4 env_pt_fails (world_at 0))
    = Some (- ENOMEM).
Proof.
  split; [reflexivity|].
  apply (pt_create_failure_unwinds 4 7 5 env_pt_fails (world_at 0)
           (KgslContext (Some 1%nat)));
    reflexivity.
Defined.

(** ** Failures once the fence exists *)

(** X4: when no descriptor can be reserved the pipeline returns [-EINVAL]
    whatever negative value [get_unused_fd_flags] gave.  The fence is put
    once and the callback state freed; the Wait Point is not destroyed
    explicitly, nothing is installed, no descriptor is released and no
    event is registered. *)
Theorem fd_failure_unwinds sz id ts e w c :
  w_contexts w !! id = Some c →
  e_kzalloc e = true →
  e_sync_pt_create e = true →
  e_sync_fence_create e = true →
  e_get_unused_fd_flags e < 0 →
  let run := kgsl_add_fence_event sz id ts sz e w in
  let pt := KgslSyncPt (timeline c) ts in
  result run = Some (- EINVAL) ∧
  calls_of run w =
    [Kzalloc true; Sync_pt_create (timeline c) true;
     Sync_fence_create "kgsl-fence" pt true;
     Get_unused_fd_flags 0 (e_get_unused_fd_flags e);
     Kgsl_drv_err "invalid fence fd";
     Sync_fence_put (SyncFence "kgsl-fence" pt);
     Kfree (KgslFenceEventPriv id)] ∧
  (w_events <$> final run) = Some (w_events w).
Proof.
  intros Hc Hkz Hpc Hfc Hfd run pt. subst run pt.
  destruct e as [kz pc fc fd cu ae tc un], w as [cx tls evs cs].
  cbn in Hc, Hkz, Hpc, Hfc, Hfd. subst. pipeline; done || lia.
Qed.

Lemma fd_failure_unwinds_witness :
  w_contexts (world_at 0) !! 7 = Some (KgslContext (Some 1%nat)) ∧
  - 24 < 0 ∧
  result (kgsl_add_fence_event 4 7 5 4 env_fd_fails (world_at 0))
    = Some (- EINVAL).
Proof.
  split; [reflexivity|]. split; [lia|].
  apply (fd_failure_unwinds 4 7 5 env_fd_fails (world_at 0)
           (KgslContext (Some 1%nat)));
    try reflexivity; simpl; lia.
Defined.

(** X5: when [kgsl_add_event] refuses the event the pipeline returns the very
    value [kgsl_add_event] returned.  By then the descriptor has been
    installed and its number copied to the caller; the pipeline puts the
    fence, releases the descriptor, puts the fence again and frees the
    callback state, and no event stays registered. *)
Theorem add_event_failure_unwinds sz id ts e w c :
  w_contexts w !! id = Some c →
  e_kzalloc e = true →
  e_sync_pt_create e = true →
  e_sync_fence_create e = true →
  0 ≤ e_get_unused_fd_flags e →
  e_copy_to_user e = 0 →
  e_kgsl_add_event e ≠ 0 →
  let run := kgsl_add_fence_event sz id ts sz e w in
  let pt := KgslSyncPt (timeline c) ts in
  let fence := SyncFence "kgsl-fence" pt in
  let fd := e_get_unused_fd_flags e in
  let event := KgslFenceEventPriv id in
  result run = Some (e_kgsl_add_event e) ∧
  calls_of run w =
    [Kzalloc true; Sync_pt_create (timeline c) true;
     Sync_fence_create "kgsl-fence" pt true;
     Get_unused_fd_flags 0 fd; Sync_fence_install fence fd;
     Copy_to_user fd 0; Kgsl_add_event ts event (e_kgsl_add_event e);
     Sync_fence_put fence; Put_unused_fd fd; Sync_fence_put fence;
     Kfree event] ∧
  (w_events <$> final run) = Some (w_events w).
Proof.
  intros Hc Hkz Hpc Hfc Hfd Hcu Hae run pt fence fd event.
  subst run pt fence fd event.
  destruct e as [kz pc fc fd cu ae tc un], w as [cx tls evs cs].
  cbn in Hc, Hkz, Hpc, Hfc, Hfd, Hcu, Hae. subst. pipeline; done || lia.
Qed.

Lemma add_event_failure_unwinds_witness :
  w_contexts (world_at 0) !! 7 = Some (KgslContext (Some 1%nat)) ∧
  0 ≤ 3 ∧ - 2 ≠ 0 ∧
  result (kgsl_add_fence_event 4 7 5 4 env_event_fails (world_at 0))
    = Some (- 2).
Proof.
  split; [reflexivity|]. split; [lia|]. split; [lia|].
  apply (add_event_failure_unwinds 4 7 5 env_event_fails (world_at 0)
           (KgslContext (Some 1%nat)));
    try reflexivity; simpl; lia.
Defined.

(** ** All paths at once *)

(** X6: the pipeline returns 0 exactly when the length is right, the context
    is known and each of the six fallible steps succeeds. *)
Theorem add_fence_event_succeeds_iff sz id ts len e w :
  result (kgsl_add_fence_event sz id ts len e w) = Some 0 ↔
  len = sz ∧ is_Some (w_contexts w !! id) ∧
  e_kzalloc e = true ∧ e_sync_pt_create e = true ∧
  e_sync_fence_create e = true ∧ 0 ≤ e_get_unused_fd_flags e ∧
  e_copy_to_user e = 0 ∧ e_kgsl_add_event e = 0.
Proof.
  destruct e as [kz pc fc fd cu ae tc un], w as [cx tls evs cs].
  pipeline; cbn.
  all: split; [intros Hr | intros (? & [? ?] & ? & ? & ? & ? & ? & ?)].
  all: try (injection Hr as Hr; try discriminate Hr).
  all: simplify_eq; try done; try lia.
  all: repeat split; eauto; lia.
Qed.

Lemma add_fence_event_succeeds_iff_witness :
  result (kgsl_add_fence_event 4 7 5 4 env_ok (world_at 0)) = Some 0.
Proof.
  apply (add_fence_event_succeeds_iff 4 7 5 4 env_ok (world_at 0)).
  repeat split; try reflexivity; [eexists; reflexivity | simpl; lia].
Defined.


(** X8: registration is all or nothing: a run that returns 0 has appended
    exactly one event, keyed by the requested timestamp and carrying the
    context; a run that fails leaves the registered events as they were.
    The context table is never written. *)
Theorem add_fence_event_registers_atomically sz id ts len e w :
  ∃ r w', kgsl_add_fence_event sz id ts len e w = Some (r, w') ∧
    w_contexts w' = w_contexts w ∧
    (r = 0 → w_events w' = w_events w ++ [(ts, KgslFenceEventPriv id)]) ∧
    (r ≠ 0 → w_events w' = w_events w).
Proof.
  destruct e as [kz pc fc fd cu ae tc un], w as [cx tls evs cs].
  pipeline; eexists _, _; (split; [reflexivity|]); cbn.
  all: split; [done|]; split; intros Hr; try done.
Qed.

Lemma add_fence_event_registers_atomically_witness :
  ∃ r w', kgsl_add_fence_event 4 7 5 4 env_event_fails (world_at 0) = Some (r, w') ∧
          w_events w' = w_events (world_at 0).
Proof.
  destruct (add_fence_event_registers_atomically 4 7 5 4 env_event_fails
              (world_at 0)) as (r & w' & Hrun & _ & _ & Hfail).
  exists r, w'. split; [exact Hrun|]. apply Hfail.
  intros ->. vm_compute in Hrun. discriminate Hrun.
Defined.

(** X9: the Wait Point is destroyed explicitly exactly when wrapping it
    failed, and it is then the Wait Point that was to be wrapped; a fence
    is put only if it is the fence [sync_fence_create] returned. *)
Theorem pt_destroyed_only_when_unwrapped sz id ts len e w :
  let cs := calls_of (kgsl_add_fence_event sz id ts len e w) w in
  (∀ pt, Sync_pt_free pt ∈ cs ↔ Sync_fence_create "kgsl-fence" pt false ∈ cs) ∧
  (∀ f, Sync_fence_put f ∈ cs →
        Sync_fence_create (fence_name f) (fence_pt f) true ∈ cs ∧
        ∀ pt, Sync_pt_free pt ∉ cs).
Proof.
  intros cs. subst cs.
  destruct e as [kz pc fc fd cu ae tc un], w as [cx tls evs cs].
  pipeline;
    (split; [intros pt0; in_calls
            | intros f0 Hf; split; [|intros pt0]; revert Hf; in_calls]).
Qed.

Lemma pt_destroyed_only_when_unwrapped_witness :
  Sync_pt_free (KgslSyncPt (Some 1%nat) 5)
    ∈ calls_of (kgsl_add_fence_event 4 7 5 4 env_fence_fails (world_at 0))
               (world_at 0).
Proof.
  apply (pt_destroyed_only_when_unwrapped 4 7 5 4 env_fence_fails (world_at 0)).
  vm_compute. do 2 right. left.
Defined.

(** X10: a descriptor is released only if it is the one that was reserved and
    installed; every failing run releases as many descriptors as it
    reserved, and a run that returns 0 keeps the one it reserved. *)
Theorem descriptor_released_on_failure k sz id ts len e w :
  let run := kgsl_add_fence_event sz id ts len e w in
  let L := account k (calls_of run w) in
  (∀ fd, Put_unused_fd fd ∈ calls_of run w →
     fd = e_get_unused_fd_flags e ∧ 0 ≤ fd ∧
     Get_unused_fd_flags 0 fd ∈ calls_of run w) ∧
  (result run ≠ Some 0 → fds_released L = fds_reserved L) ∧
  (result run = Some 0 → fds_reserved L = 1%nat ∧ fds_released L = 0%nat).
Proof.
  intros run L. subst L run.
  destruct e as [kz pc fc fd cu ae tc un], w as [cx tls evs cs].
  pipeline; (split; [intros fd'; in_calls; lia|]).
  all: unfold account; cbn.
  all: rewrite ?bool_decide_true, ?bool_decide_false by lia.
  all: destruct k as [|[|k]]; cbn; split; intros Hr; simplify_eq; done.
Qed.

Lemma descriptor_released_on_failure_witness :
  result (kgsl_add_fence_event 4 7 5 4 env_copy_fails (world_at 0)) ≠ Some 0 ∧
  fds_released
    (account 0 (calls_of (kgsl_add_fence_event 4 7 5 4 env_copy_fails
                            (world_at 0)) (world_at 0))) =
  fds_reserved
    (account 0 (calls_of (kgsl_add_fence_event 4 7 5 4 env_copy_fails
                            (world_at 0)) (world_at 0))).
Proof.
  split; [vm_compute; discriminate|].
  destruct (descriptor_released_on_failure 0 4 7 5 4 env_copy_fails
              (world_at 0)) as (_ & Hfail & _).
  apply Hfail. vm_compute. discriminate.
Defined.

(** X11: once the fence has been installed at a descriptor, a failing run puts
    the fence exactly twice and releases the descriptor exactly once,
    whereas a run that returns 0 never puts it. *)
Theorem fence_puts_after_install k sz id ts len e w f fd :
  let run := kgsl_add_fence_event sz id ts len e w in
  let L := account k (calls_of run w) in
  Sync_fence_install f fd ∈ calls_of run w →
  (result run = Some 0 ∧ refs_dropped L = 0%nat ∧ fds_released L = 0%nat) ∨
  (result run ≠ Some 0 ∧ refs_dropped L = 2%nat ∧ fds_released L = 1%nat).
Proof.
  intros run L. subst L run.
  destruct e as [kz pc fc fd' cu ae tc un], w as [cx tls evs cs].
  pipeline; in_calls.
  all: unfold account; cbn.
  all: rewrite ?bool_decide_true, ?bool_decide_false by lia.
  all: destruct k as [|[|k]]; cbn.
  all: try (left; split; [done|done]).
  all: right; split; [|done]; intros [= Hr]; done.
Qed.

Lemma fence_puts_after_install_witness :
  (result (kgsl_add_fence_event 4 7 5 4 env_event_fails (world_at 0)) = Some 0 ∧
   refs_dropped (account 1 (calls_of (kgsl_add_fence_event 4 7 5 4
                   env_event_fails (world_at 0)) (world_at 0))) = 0%nat ∧
   fds_released (account 1 (calls_of (kgsl_add_fence_event 4 7 5 4
                   env_event_fails (world_at 0)) (world_at 0))) = 0%nat) ∨
  (result (kgsl_add_fence_event 4 7 5 4 env_event_fails (world_at 0)) ≠ Some 0 ∧
   refs_dropped (account 1 (calls_of (kgsl_add_fence_event 4 7 5 4
                   env_event_fails (world_at 0)) (world_at 0))) = 2%nat ∧
   fds_released (account 1 (calls_of (kgsl_add_fence_event 4 7 5 4
                   env_event_fails (world_at 0)) (world_at 0))) = 1%nat).
Proof.
  apply (fence_puts_after_install 1 4 7 5 4 env_event_fails (world_at 0)
           (SyncFence "kgsl-fence" (KgslSyncPt (Some 1%nat) 5)) 3).
  vm_compute. do 4 right. left.
Defined.

(** * Further properties of timelines, callbacks and sync points *)

(** ** The completion callback *)

Lemma kgsl_fence_event_cb_exec e w ev ts c l tl :
  w_contexts w !! context ev = Some c →
  timeline c = Some l →
  w_timelines w !! l = Some tl →
  kgsl_fence_event_cb ev ts e w =
    Some (tt, World (w_contexts w) (<[l := KgslSyncTimeline ts]> (w_timelines w))
                    (w_events w)
                    (w_calls w ++ [Sync_timeline_signal (Some l); Kfree ev])).
Proof.
  intros Hc Hl Htl. destruct ev as [id], c as [p], w as [cx tls evs cs].
  cbn in Hc, Hl, Htl. subst p. exec. rewrite Hc, Htl.
  by rewrite <- (assoc_L (++)).
Qed.

(** X12: fired on a context with a live timeline, the callback moves that
    timeline to the retired timestamp, notifies the sync framework once
    and then frees its private state once; the other timelines, the
    context table and the registered events are not written. *)
Theorem callback_advances_and_frees e w ev ts c l tl :
  w_contexts w !! context ev = Some c →
  timeline c = Some l →
  w_timelines w !! l = Some tl →
  ∃ w', kgsl_fence_event_cb ev ts e w = Some (tt, w') ∧
    last_retired w' l = Some ts ∧
    (∀ l', l' ≠ l → w_timelines w' !! l' = w_timelines w !! l') ∧
    w_contexts w' = w_contexts w ∧ w_events w' = w_events w ∧
    calls_since w w' = [Sync_timeline_signal (Some l); Kfree ev].
Proof.
  intros Hc Hl Htl.
  rewrite (kgsl_fence_event_cb_exec _ _ _ _ _ _ _ Hc Hl Htl).
  eexists. split; [reflexivity|]. unfold last_retired, calls_since. cbn.
  rewrite lookup_insert_eq, drop_app_length. repeat split; try done.
  intros l' Hne. by apply lookup_insert_ne.
Qed.

Lemma callback_advances_and_frees_witness :
  w_contexts (world_at 0) !! 7 = Some (KgslContext (Some 1%nat)) ∧
  w_timelines (world_at 0) !! 1%nat = Some (KgslSyncTimeline 0) ∧
  ∃ w', kgsl_fence_event_cb (KgslFenceEventPriv 7) 5 env_ok (world_at 0)
          = Some (tt, w') ∧
        last_retired w' 1%nat = Some 5.
Proof.
  split; [reflexivity|]. split; [reflexivity|].
  destruct (callback_advances_and_frees env_ok (world_at 0)
              (KgslFenceEventPriv 7) 5 (KgslContext (Some 1%nat)) 1%nat
              (KgslSyncTimeline 0) eq_refl eq_refl eq_refl)
    as (w' & Hrun & Hlast & _).
  exists w'. split; [exact Hrun|exact Hlast].
Defined.

(** X13: neither the callback nor the advance checks the timeline pointer:
    an advance of a NULL timeline faults, and so does the callback fired
    on a context whose timeline is NULL, as [kgsl_sync_timeline_create]
    leaves it when it fails with [-EINVAL]. *)
Theorem callback_faults_without_timeline e w c ctx ts :
  w_contexts w !! c = Some ctx →
  e_sync_timeline_create e = None →
  result (kgsl_sync_timeline_create c e w) = Some (- EINVAL) ∧
  (kgsl_sync_timeline_create c;;
   kgsl_fence_event_cb (KgslFenceEventPriv c) ts) e w = None ∧
  kgsl_sync_timeline_signal None ts e w = None.
Proof.
  intros Hc Htc. destruct e as [kz pc fc fd cu ae tc un], w as [cx tls evs cs].
  cbn in Hc, Htc. subst tc. exec. rewrite Hc. cbn.
  by rewrite !lookup_insert_eq.
Qed.

Lemma callback_faults_without_timeline_witness :
  w_contexts (world_at 0) !! 7 = Some (KgslContext (Some 1%nat)) ∧
  (kgsl_sync_timeline_create 7;;
   kgsl_fence_event_cb (KgslFenceEventPriv 7) 5) env_timeline_fails (world_at 0)
    = None.
Proof.
  split; [reflexivity|].
  apply (callback_faults_without_timeline env_timeline_fails (world_at 0) 7
           (KgslContext (Some 1%nat)) 5); reflexivity.
Defined.

(** X14: a fence and its callback, end to end: after a run that returned 0 the
    last registered event is the one for the requested timestamp, the
    wrapped Wait Point sits on the context's timeline, and once the
    callback has fired with timestamp [t] that Wait Point answers
    [kgsl_sync_pt_has_signaled] by comparing [t] with its own timestamp; in
    particular it is signalled when the callback fires with the timestamp
    the fence was requested for. *)
Theorem callback_signals_created_fence sz id ts len e e' w w1 c l tl :
  kgsl_add_fence_event sz id ts len e w = Some (0, w1) →
  w_contexts w !! id = Some c →
  timeline c = Some l →
  w_timelines w !! l = Some tl →
  let pt := KgslSyncPt (Some l) ts in
  let ev := KgslFenceEventPriv id in
  last (w_events w1) = Some (ts, ev) ∧
  Sync_fence_create "kgsl-fence" pt true ∈ calls_since w w1 ∧
  (∀ t, result ((kgsl_fence_event_cb ev t;;
                 kgsl_sync_pt_has_signaled pt) e' w1) =
        Some (if bool_decide (0 ≤ timestamp_cmp t ts) then 1 else 0)) ∧
  result ((kgsl_fence_event_cb ev ts;;
           kgsl_sync_pt_has_signaled pt) e' w1) = Some 1.
Proof.
  intros Hrun Hc Hl Htl pt ev.
  assert (Hcb : ∀ t, result ((kgsl_fence_event_cb ev t;;
                              kgsl_sync_pt_has_signaled pt) e' w1) =
                     Some (if bool_decide (0 ≤ timestamp_cmp t ts) then 1 else 0)).
  { intros t.
    destruct (add_fence_event_registers_atomically sz id ts len e w)
      as (r & w' & Hrun' & Hctx & _).
    destruct (kgsl_add_fence_event_returns sz id ts len e w) as (r0 & w0 & H0).
    assert (Htls : w_timelines w1 = w_timelines w).
    { clear -Hrun. destruct e as [kz pc fc fd cu ae tc un], w as [cx tls evs cs].
      revert Hrun. pipeline; intros [= <-]; done. }
    rewrite Hrun in Hrun'. injection Hrun' as <- <-.
    unfold mbind at 1, M_bind.
    rewrite (kgsl_fence_event_cb_exec e' w1 ev t c l tl);
      [|by rewrite Hctx|done|by rewrite Htls].
    rewrite (kgsl_sync_pt_has_signaled_run e' _ pt l (KgslSyncTimeline t));
      [done|done|]. cbn. apply lookup_insert_eq. }
  split; [|split; [|split; [exact Hcb|]]].
  - destruct (add_fence_event_registers_atomically sz id ts len e w)
      as (r & w' & Hrun' & _ & Hok & _).
    rewrite Hrun in Hrun'. injection Hrun' as <- <-.
    rewrite Hok by done. apply last_snoc.
  - clear Hcb. subst pt. destruct e as [kz pc fc fd cu ae tc un], w as [cx tls evs cs].
    cbn in Hc. revert Hrun. pipeline; intros Heq; simplify_eq.
    norm_calls. in_calls.
  - rewrite Hcb, timestamp_cmp_refl. done.
Qed.

Lemma callback_signals_created_fence_witness :
  result ((kgsl_add_fence_event 4 7 5 4;;
           kgsl_fence_event_cb (KgslFenceEventPriv 7) 5;;
           kgsl_sync_pt_has_signaled (KgslSyncPt (Some 1%nat) 5))
            env_ok (world_at 0)) = Some 1.
Proof.
  destruct (kgsl_add_fence_event 4 7 5 4 env_ok (world_at 0))
    as [[r w1]|] eqn:Hrun; [|vm_compute in Hrun; discriminate Hrun].
  assert (r = 0) as -> by (vm_compute in Hrun; congruence).
  unfold mbind at 1, M_bind. rewrite Hrun.
  apply (callback_signals_created_fence 4 7 5 4 env_ok env_ok (world_at 0) w1
           (KgslContext (Some 1%nat)) 1%nat (KgslSyncTimeline 0) Hrun);
    reflexivity.
Defined.

(** ** Timelines *)

(** X15: an advance is local to its timeline: it writes neither the context
    table nor the registered events, and a Wait Point on any other
    timeline answers [kgsl_sync_pt_has_signaled] after it as before. *)
Theorem signal_isolates_timelines e e' w l tl ts pt :
  w_timelines w !! l = Some tl →
  parent pt ≠ Some l →
  ∃ w', kgsl_sync_timeline_signal (Some l) ts e w = Some (tt, w') ∧
    w_contexts w' = w_contexts w ∧ w_events w' = w_events w ∧
    result (kgsl_sync_pt_has_signaled pt e' w') =
    result (kgsl_sync_pt_has_signaled pt e' w).
Proof.
  intros Hl Hp. rewrite (kgsl_sync_timeline_signal_run _ _ _ _ _ Hl).
  eexists. split; [reflexivity|]. split; [done|]. split; [done|].
  destruct pt as [[l'|] t], w as [cx tls evs cs]; cbn in *; exec; [|done].
  rewrite lookup_insert_ne by congruence.
  destruct (tls !! l') as [[last]|]; [|done]. by case_bool_decide.
Qed.

Lemma signal_isolates_timelines_witness :
  w_timelines (world_at 0) !! 1%nat = Some (KgslSyncTimeline 0) ∧
  Some 2%nat ≠ Some 1%nat ∧
  ∃ w', kgsl_sync_timeline_signal (Some 1%nat) 9 env_ok (world_at 0)
          = Some (tt, w') ∧
        w_events w' = w_events (world_at 0).
Proof.
  split; [reflexivity|]. split; [discriminate|].
  destruct (signal_isolates_timelines env_ok env_ok (world_at 0) 1%nat
              (KgslSyncTimeline 0) 9 (KgslSyncPt (Some 2%nat) 5) eq_refl)
    as (w' & Hrun & _ & Hev & _); [discriminate|].
  exists w'. split; [exact Hrun|exact Hev].
Defined.

Lemma advances_exec e tss : ∀ w l tl,
  w_timelines w !! l = Some tl →
  advances (Some l) tss e w =
    Some (tt, World (w_contexts w)
                    (match last tss with
                     | Some t => <[l := KgslSyncTimeline t]> (w_timelines w)
                     | None => w_timelines w
                     end)
                    (w_events w)
                    (w_calls w ++
                     replicate (length tss) (Sync_timeline_signal (Some l)))).
Proof.
  induction tss as [|ts tss IH]; intros w l tl Hl.
  - destruct w. cbn. by rewrite (right_id_L [] (++)).
  - cbn [advances]. unfold mbind at 1, M_bind.
    rewrite (kgsl_sync_timeline_signal_run _ _ _ _ _ Hl).
    rewrite (IH _ l (KgslSyncTimeline ts)) by (cbn; apply lookup_insert_eq).
    cbn. rewrite last_cons, <- (assoc_L (++)). cbn.
    destruct (last tss); [by rewrite insert_insert_eq|done].
Qed.

(** X16: a sequence of advances of a live timeline never faults; it notifies
    the sync framework once per advance and not otherwise, leaves the
    timeline at the last timestamp given (the last writer wins, so
    repeating an advance changes nothing) and writes no other timeline, no
    context and no event. *)
Theorem advances_notify_each e w l tl tss :
  w_timelines w !! l = Some tl →
  ∃ w', advances (Some l) tss e w = Some (tt, w') ∧
    calls_since w w' = replicate (length tss) (Sync_timeline_signal (Some l)) ∧
    w_timelines w' =
      match last tss with
      | Some t => <[l := KgslSyncTimeline t]> (w_timelines w)
      | None => w_timelines w
      end ∧
    w_contexts w' = w_contexts w ∧ w_events w' = w_events w ∧
    ∀ t, (w_timelines <$> final (advances (Some l) (tss ++ [t; t]) e w)) =
         (w_timelines <$> final (advances (Some l) (tss ++ [t]) e w)).
Proof.
  intros Hl. rewrite (advances_exec e tss w l tl Hl).
  eexists. split; [reflexivity|]. unfold calls_since. cbn.
  rewrite drop_app_length. repeat split; try done.
  intros t. rewrite !(advances_exec e _ w l tl Hl). cbn.
  by rewrite !last_app.
Qed.

Lemma advances_notify_each_witness :
  w_timelines (world_at 0) !! 1%nat = Some (KgslSyncTimeline 0) ∧
  ∃ w', advances (Some 1%nat) [4; 6; 6] env_ok (world_at 0) = Some (tt, w') ∧
        calls_since (world_at 0) w' =
          replicate 3 (Sync_timeline_signal (Some 1%nat)).
Proof.
  split; [reflexivity|].
  destruct (advances_notify_each env_ok (world_at 0) 1%nat (KgslSyncTimeline 0)
              [4; 6; 6] eq_refl) as (w' & Hrun & Hcalls & _).
  exists w'. split; [exact Hrun|exact Hcalls].
Defined.

(** X17: [kgsl_sync_timeline_create] makes one call, to [sync_timeline_create],
    and overwrites the context's [timeline] with its answer.  What the
    context pointed to before is not destroyed and the timeline objects at
    other addresses, that one included, are left as they were; the other
    contexts and the registered events are not written. *)
Theorem timeline_create_replaces_pointer e w c ctx :
  w_contexts w !! c = Some ctx →
  ∃ r w', kgsl_sync_timeline_create c e w = Some (r, w') ∧
    calls_since w w' =
      [Sync_timeline_create "kgsl-timeline" (e_sync_timeline_create e)] ∧
    w_contexts w' !! c = Some (KgslContext (e_sync_timeline_create e)) ∧
    (∀ c', c' ≠ c → w_contexts w' !! c' = w_contexts w !! c') ∧
    (∀ l', e_sync_timeline_create e ≠ Some l' →
           w_timelines w' !! l' = w_timelines w !! l') ∧
    w_events w' = w_events w.
Proof.
  intros Hc. destruct e as [kz pc fc fd cu ae [l|] un], w as [cx tls evs cs].
  all: exec; cbn in Hc; rewrite Hc; rewrite ?lookup_insert_eq; cbn.
  all: rewrite ?lookup_insert_eq; cbn.
  all: eexists _, _; (split; [reflexivity|]); cbn; norm_calls.
  all: split; [done|]; split; [apply lookup_insert_eq|].
  all: split; [intros c' Hne; by apply lookup_insert_ne|].
  all: split; [|done]; intros l' Hne; try done.
  rewrite !lookup_insert_ne by congruence. done.
Qed.

Lemma timeline_create_replaces_pointer_witness :
  w_contexts (world_at 6) !! 7 = Some (KgslContext (Some 1%nat)) ∧
  ∃ r w', kgsl_sync_timeline_create 7 env_ok (world_at 6) = Some (r, w') ∧
    w_contexts w' !! 7 = Some (KgslContext (Some 2%nat)) ∧
    w_timelines w' !! 1%nat = Some (KgslSyncTimeline 6).
Proof.
  split; [reflexivity|].
  destruct (timeline_create_replaces_pointer env_ok (world_at 6) 7
              (KgslContext (Some 1%nat)) eq_refl)
    as (r & w' & Hrun & _ & Hctx & _ & Hother & _).
  exists r, w'. split; [exact Hrun|]. split; [exact Hctx|].
  rewrite (Hother 1%nat); [reflexivity|discriminate].
Defined.

(** X18: creating and then destroying a context's timeline: the destroy hands
    [sync_timeline_destroy] exactly the pointer the create stored, NULL
    when the create failed, and leaves [context->timeline] pointing at
    it. *)
Theorem timeline_create_destroy e w c ctx :
  w_contexts w !! c = Some ctx →
  let run := (kgsl_sync_timeline_create c;; kgsl_sync_timeline_destroy c) e w in
  let tl := e_sync_timeline_create e in
  result run = Some tt ∧
  calls_of run w =
    [Sync_timeline_create "kgsl-timeline" tl; Sync_timeline_destroy tl] ∧
  (final run ≫= λ w', timeline <$> w_contexts w' !! c) = Some tl.
Proof.
  intros Hc run tl. subst run tl.
  destruct e as [kz pc fc fd cu ae [l|] un], w as [cx tls evs cs].
  all: exec; cbn in Hc; rewrite Hc; rewrite ?lookup_insert_eq; cbn.
  all: rewrite ?lookup_insert_eq; cbn.
  all: rewrite ?lookup_insert_eq; cbn; norm_calls; done.
Qed.

Lemma timeline_create_destroy_witness :
  w_contexts (world_at 0) !! 7 = Some (KgslContext (Some 1%nat)) ∧
  calls_of ((kgsl_sync_timeline_create 7;; kgsl_sync_timeline_destroy 7)
              env_timeline_fails (world_at 0)) (world_at 0) =
    [Sync_timeline_create "kgsl-timeline" None; Sync_timeline_destroy None].
Proof.
  split; [reflexivity|].
  apply (timeline_create_destroy env_timeline_fails (world_at 0) 7
           (KgslContext (Some 1%nat))).
  reflexivity.
Defined.

(** ** Ordering of sync points *)

(** X19: the order of [kgsl_sync_pt_compare] is the order in which Wait Points
    signal: a Wait Point on a live timeline is signalled exactly when a
    point stamped with the timeline's [last_timestamp] is not before it;
    the comparison looks at the two timestamps only, whatever timelines
    the points belong to. *)
Theorem compare_agrees_with_has_signaled e w pt probe l tl :
  parent pt = Some l →
  w_timelines w !! l = Some tl →
  timestamp probe = last_timestamp tl →
  (result (kgsl_sync_pt_has_signaled pt e w) = Some 1 ↔
   0 ≤ kgsl_sync_pt_compare probe pt) ∧
  (result (kgsl_sync_pt_has_signaled pt e w) = Some 0 ↔
   kgsl_sync_pt_compare probe pt < 0).
Proof.
  intros Hp Hl Hprobe.
  rewrite (kgsl_sync_pt_has_signaled_run _ _ _ _ _ Hp Hl).
  unfold kgsl_sync_pt_compare. rewrite Hprobe. cbn.
  case_bool_decide; split; split; intros H'; try done; try lia.
Qed.

Lemma compare_agrees_with_has_signaled_witness :
  w_timelines (world_at 9) !! 1%nat = Some (KgslSyncTimeline 9) ∧
  (result (kgsl_sync_pt_has_signaled (KgslSyncPt (Some 1%nat) 5) env_ok
             (world_at 9)) = Some 1 ↔
   0 ≤ kgsl_sync_pt_compare (KgslSyncPt None 9) (KgslSyncPt (Some 1%nat) 5)).
Proof.
  split; [reflexivity|].
  apply (compare_agrees_with_has_signaled env_ok (world_at 9)
           (KgslSyncPt (Some 1%nat) 5) (KgslSyncPt None 9) 1%nat
           (KgslSyncTimeline 9));
    reflexivity.
Defined.
